(** * UDSFrame: service identifiers and functional CAN identifier groups

    A shallow embedding of [UDSFrame.py]: the [SID] and [SType]
    enumerations, the value lookup [SID.get_sid], the classifier
    [__identify_service], and the [UDSCANFncIDs] data class with its
    [append] method, over a store of mutable Python objects. *)

From stdpp Require Import gmap strings list fin_maps.
From Stdlib Require Import ZArith Lia.

Local Open Scope Z_scope.

(** ** Enumerations *)

Module SID.

(** [class SID(Enum)]: the members in the order of their definition,
    which is the order in which [for _sid in cls] visits them. *)
Inductive t : Set :=
| DiagSCntr | ECUReset | SecAccess | ComCntr | TsPresent
| AccTimParam | SecDatTrans | CntrDTCSet | ResOnEve | LinkCntr
| RDatByID | RMemByAddr | RScDatByID | RDatByPID | DynDefDID
| WDatByID | WMemByAddr | ClrDiagInfo | RDTCInfo | IOCntrByID
| RoutineCntr | ReqDnL | ReqUpL | TransDat | ReqTransExit
| ReqFileTrans | Other.

(** [_sid.value] *)
Definition value (m : t) : Z :=
  match m with
  | DiagSCntr => 0x10
  | ECUReset => 0x11
  | SecAccess => 0x27
  | ComCntr => 0x28
  | TsPresent => 0x3E
  | AccTimParam => 0x83
  | SecDatTrans => 0x84
  | CntrDTCSet => 0x85
  | ResOnEve => 0x86
  | LinkCntr => 0x87
  | RDatByID => 0x22
  | RMemByAddr => 0x23
  | RScDatByID => 0x24
  | RDatByPID => 0x2A
  | DynDefDID => 0x2C
  | WDatByID => 0x2E
  | WMemByAddr => 0x3D
  | ClrDiagInfo => 0x14
  | RDTCInfo => 0x19
  | IOCntrByID => 0x2F
  | RoutineCntr => 0x31
  | ReqDnL => 0x34
  | ReqUpL => 0x35
  | TransDat => 0x36
  | ReqTransExit => 0x37
  | ReqFileTrans => 0x38
  | Other => 0xFF
  end.

(** Iterating the class: every member once, in definition order (no two
    members share a value, so the enumeration has no alias). *)
Definition members : list t :=
  [ DiagSCntr; ECUReset; SecAccess; ComCntr; TsPresent;
    AccTimParam; SecDatTrans; CntrDTCSet; ResOnEve; LinkCntr;
    RDatByID; RMemByAddr; RScDatByID; RDatByPID; DynDefDID;
    WDatByID; WMemByAddr; ClrDiagInfo; RDTCInfo; IOCntrByID;
    RoutineCntr; ReqDnL; ReqUpL; TransDat; ReqTransExit;
    ReqFileTrans; Other ].

(** One turn of the loop of [get_sid]:
    [if _sid.value == sid: ret = _sid]. *)
Definition get_sid_step (sid : Z) (ret _sid : t) : t :=
  if value _sid =? sid then _sid else ret.

(** The loop [for _sid in ms: ...] started from [ret]. *)
Definition get_sid_loop (sid : Z) (ms : list t) (ret : t) : t :=
  fold_left (get_sid_step sid) ms ret.

(** [SID.get_sid]: [ret] starts as [SID.Other] and is overwritten by
    every member whose value equals [sid]; the loop has no [break]. *)
Definition get_sid (sid : Z) : t :=
  get_sid_loop sid members Other.

End SID.

Module SType.

(** [class SType(Enum)] *)
Inductive t : Set :=
| UDSService | UDSPosRes | UDSNegRes | OBDService | Other.

Definition value (m : t) : Z :=
  match m with
  | UDSService => 0
  | UDSPosRes => 1
  | UDSNegRes => 2
  | OBDService => 3
  | Other => 4
  end.

End SType.

(** ** Service classification *)

(** [__identify_service(sid)]: the [if]/[elif] chain, top to bottom; a
    chained comparison [a < sid < b] is the conjunction of its two
    halves. *)
Definition __identify_service (sid : Z) : SID.t * SType.t :=
  if sid <? 0x10 then
    (SID.Other, SType.OBDService)
  else if sid <? 0x3F then
    (SID.get_sid sid, SType.UDSService)
  else if (0x3F <? sid) && (sid <? 0x7F) then
    (SID.get_sid (sid - 0x40), SType.UDSPosRes)
  else if sid =? 0x7F then
    (SID.Other, SType.UDSNegRes)
  else if (0x82 <? sid) && (sid <? 0x89) then
    (SID.get_sid sid, SType.UDSService)
  else if (0xC2 <? sid) && (sid <? 0xC9) then
    (SID.get_sid (sid - 0x40), SType.UDSPosRes)
  else
    (SID.Other, SType.Other).

(** ** Functional CAN identifier groups *)

(** Python objects are mutable and are reached through references: an
    instance of [UDSCANFncIDs] holds a reference to a list object, and
    the caller that built the list, or another instance built from it,
    may hold the same reference. The store keeps the list objects and the
    instances apart, each under its object identity. *)
Abbreviation loc := positive.

Module UDSCANFncIDs.

(** [@dataclass class UDSCANFncIDs]: [FncIDs: list[str]] is a reference
    to a list object, [FncIDNum: int] an integer. *)
Record t : Set := mk { FncIDs : loc; FncIDNum : Z }.

Record store : Type := mkStore {
  lists : gmap loc (list string);
  groups : gmap loc t
}.

Definition empty_store : store := mkStore ∅ ∅.

(** A list display [[x1, ..., xn]]: a new list object. *)
Definition list_new (xs : list string) (σ : store) : loc * store :=
  let l := fresh (dom (lists σ)) in
  (l, mkStore (<[l := xs]> (lists σ)) (groups σ)).

(** [l.append(x)] of the built-in list, in place. [None] stands for a
    reference to no object, which a running program never holds. *)
Definition list_append (l : loc) (x : string) (σ : store) : option store :=
  xs ← lists σ !! l;
  Some (mkStore (<[l := xs ++ [x]]> (lists σ)) (groups σ)).

(** [len(l)] *)
Definition list_len (l : loc) (σ : store) : option Z :=
  xs ← lists σ !! l;
  Some (Z.of_nat (length xs)).

(** The [__init__] that [@dataclass] generates from the two fields:
    [def __init__(self, FncIDs, FncIDNum=0)] stores both arguments as
    they are given; [FncIDNum = None] here is the omitted argument. The
    class has no [__post_init__]. *)
Definition __init__ (FncIDs : loc) (FncIDNum : option Z) (σ : store)
  : loc * store :=
  let self := fresh (dom (groups σ)) in
  (self, mkStore (lists σ) (<[self := mk FncIDs (default 0 FncIDNum)]> (groups σ))).

(** [self.FncIDNum = n] *)
Definition set_FncIDNum (self : loc) (n : Z) (σ : store) : option store :=
  o ← groups σ !! self;
  Some (mkStore (lists σ) (<[self := mk (FncIDs o) n]> (groups σ))).

(** [def append(self, fncid)]:
    [self.FncIDs.append(fncid)] then [self.FncIDNum = len(self.FncIDs)]. *)
Definition append (self : loc) (fncid : string) (σ : store) : option store :=
  o ← groups σ !! self;
  σ1 ← list_append (FncIDs o) fncid σ;
  o1 ← groups σ1 !! self;
  n ← list_len (FncIDs o1) σ1;
  set_FncIDNum self n σ1.

(** What a reader of the instance sees: the contents of [g.FncIDs] and
    the value of [g.FncIDNum]. *)
Definition ids_of (σ : store) (g : loc) : option (list string) :=
  o ← groups σ !! g;
  lists σ !! FncIDs o.

Definition num_of (σ : store) (g : loc) : option Z :=
  FncIDNum <$> groups σ !! g.

(** [g.FncIDNum == len(g.FncIDs)] *)
Definition count_ok (σ : store) (g : loc) : bool :=
  match num_of σ g, ids_of σ g with
  | Some n, Some xs => n =? Z.of_nat (length xs)
  | _, _ => false
  end.

End UDSCANFncIDs.

Import UDSCANFncIDs (store, mkStore, lists, groups, empty_store, FncIDs, FncIDNum).

(** Decide the comparisons of the [if]/[elif] chain, outermost first. *)
Ltac classify :=
  unfold __identify_service;
  repeat match goal with
    | |- context [?a <? ?b] =>
        destruct (Z.ltb_spec a b); try lia; cbn [andb]; cbv iota
    | |- context [?a =? ?b] =>
        destruct (Z.eqb_spec a b); try lia; cbn [andb]; cbv iota
    end;
  try reflexivity.

(** ** Scenarios

    Short programs over the store, written as a caller would write them. *)
Module Scenario.

Import UDSCANFncIDs.

(** [ids = ["7DF"]; g = UDSCANFncIDs(ids)] *)
Definition default_count : loc * store :=
  let '(ids, σ1) := list_new ["7DF"%string] empty_store in
  __init__ ids None σ1.

(** [ids = []; g = UDSCANFncIDs(ids, 5)] *)
Definition explicit_count : loc * store :=
  let '(ids, σ1) := list_new [] empty_store in
  __init__ ids (Some 5) σ1.

(** [ids = []; g = UDSCANFncIDs(ids)] *)
Definition empty_group : loc * store :=
  let '(ids, σ1) := list_new [] empty_store in
  __init__ ids None σ1.

(** [ids = ["7DF"]; g = UDSCANFncIDs(ids, 1)] *)
Definition one_id : loc * store :=
  let '(ids, σ1) := list_new ["7DF"%string] empty_store in
  __init__ ids (Some 1) σ1.

(** [ids = []; g1 = UDSCANFncIDs(ids); g2 = UDSCANFncIDs(ids);
    g1.append("7DF")] *)
Definition shared_list : option (loc * loc * store) :=
  let '(ids, σ1) := list_new [] empty_store in
  let '(g1, σ2) := __init__ ids None σ1 in
  let '(g2, σ3) := __init__ ids None σ2 in
  σ4 ← append g1 "7DF" σ3;
  Some (g1, g2, σ4).

End Scenario.

(** ** The enumeration as a map *)

(** [SID._value2member_map_], the map from values to members that [Enum]
    keeps for the call [SID(value)]; with two members of one value the
    first defined would stand for both. *)
Definition SID_value2member : gmap Z SID.t :=
  list_to_map ((λ m, (SID.value m, m)) <$> SID.members).

(** ** Programs over several instances and several calls *)
Module Program.

Import UDSCANFncIDs.

(** [for fncid in ys: g.append(fncid)] *)
Fixpoint append_all (self : loc) (ys : list string) (σ : store)
  : option store :=
  match ys with
  | [] => Some σ
  | fncid :: ys' => σ1 ← append self fncid σ; append_all self ys' σ1
  end.

(** [ids = []; g1 = UDSCANFncIDs(ids); g2 = UDSCANFncIDs(ids)] *)
Definition two_on_one_list : loc * loc * store :=
  let '(ids, σ1) := list_new [] empty_store in
  let '(g1, σ2) := __init__ ids None σ1 in
  let '(g2, σ3) := __init__ ids None σ2 in
  (g1, g2, σ3).

(** [a = ["7DF"]; b = []; g1 = UDSCANFncIDs(a, 1)] *)
Definition one_on_two_lists : loc * loc * store :=
  let '(a, σ1) := list_new ["7DF"%string] empty_store in
  let '(b, σ2) := list_new [] σ1 in
  let '(g1, σ3) := __init__ a (Some 1) σ2 in
  (g1, b, σ3).

(** ... then [g2 = UDSCANFncIDs(b)] *)
Definition two_on_two_lists : loc * loc * store :=
  let '(g1, b, σ3) := one_on_two_lists in
  let '(g2, σ4) := __init__ b None σ3 in
  (g1, g2, σ4).

(** Every instance of the store has [FncIDNum == len(FncIDs)]. *)
Definition all_count_ok (σ : store) : Prop :=
  ∀ g, is_Some (groups σ !! g) → count_ok σ g = true.

(** No two instances of the store refer to one list object. *)
Definition no_shared_list (σ : store) : Prop :=
  ∀ g1 g2 o1 o2,
    groups σ !! g1 = Some o1 → groups σ !! g2 = Some o2 →
    FncIDs o1 = FncIDs o2 → g1 = g2.

End Program.

(** * Properties *)

(** ** The value lookup [SID.get_sid] *)

Section GetSidLoop.

Variable sid : Z.

Lemma get_sid_loop_snoc ms m ret :
  SID.get_sid_loop sid (ms ++ [m]) ret
  = SID.get_sid_step sid (SID.get_sid_loop sid ms ret) m.
Proof. unfold SID.get_sid_loop. by rewrite fold_left_app. Qed.

(** A loop over members none of which has the value leaves [ret] alone. *)
Lemma get_sid_loop_no_match ms ret :
  Forall (λ m, SID.value m ≠ sid) ms →
  SID.get_sid_loop sid ms ret = ret.
Proof.
  intros Hms. revert ret.
  induction Hms as [|m ms Hm _ IH]; intros ret; [done|].
  cbn. unfold SID.get_sid_step at 2.
  destruct (Z.eqb_spec (SID.value m) sid); [done|]. apply IH.
Qed.

(** The loop returns a member that has the value, or [ret]. *)
Lemma get_sid_loop_sound ms ret :
  SID.get_sid_loop sid ms ret = ret
  ∨ SID.value (SID.get_sid_loop sid ms ret) = sid.
Proof.
  induction ms as [|m ms IH] using rev_ind; [by left|].
  rewrite get_sid_loop_snoc. unfold SID.get_sid_step.
  destruct (Z.eqb_spec (SID.value m) sid); [by right|done].
Qed.

End GetSidLoop.

Lemma SID_members_complete (m : SID.t) : m ∈ SID.members.
Proof. unfold SID.members. destruct m; set_solver. Qed.

Lemma SID_value_inj (m m' : SID.t) : SID.value m = SID.value m' → m = m'.
Proof. destruct m, m'; first [reflexivity | discriminate]. Qed.

Lemma get_sid_value (m : SID.t) : SID.get_sid (SID.value m) = m.
Proof. by destruct m. Qed.

Lemma get_sid_match (sid : Z) (m : SID.t) :
  SID.value m = sid → SID.get_sid sid = m.
Proof. intros <-. apply get_sid_value. Qed.

Lemma get_sid_no_match (sid : Z) :
  (∀ m, SID.value m ≠ sid) → SID.get_sid sid = SID.Other.
Proof.
  intros Hno. apply get_sid_loop_no_match, Forall_forall. auto.
Qed.

(** ** Service classification *)

(** C7: every value below 0x10 is classified as [OBDService] and its
    identifier is [SID.Other] whatever the value: the first branch returns
    the constant, [SID.get_sid] is not consulted. *)
Theorem identify_service_obd (sid : Z) :
  sid < 0x10 → __identify_service sid = (SID.Other, SType.OBDService).
Proof. intros Hlt. classify. Qed.

Lemma identify_service_obd_witness :
  0x0F < 0x10 ∧ __identify_service 0x0F = (SID.Other, SType.OBDService).
Proof. split; [lia | apply (identify_service_obd 0x0F); lia]. Defined.

(** C3: in both request ranges, 0x10 <= v < 0x3F and 0x82 < v < 0x89, the
    category is [UDSService] and the identifier is the member whose value
    is exactly v, or [SID.Other] when no member has that value; 0x10 and
    0x11 give [DiagSCntr] and [ECUReset]. *)
Theorem identify_service_request (sid : Z) :
  0x10 ≤ sid < 0x3F ∨ 0x82 < sid < 0x89 →
  __identify_service sid = (SID.get_sid sid, SType.UDSService)
  ∧ (∀ m, SID.value m = sid → SID.get_sid sid = m)
  ∧ ((∀ m, SID.value m ≠ sid) → SID.get_sid sid = SID.Other)
  ∧ __identify_service 0x10 = (SID.DiagSCntr, SType.UDSService)
  ∧ __identify_service 0x11 = (SID.ECUReset, SType.UDSService).
Proof.
  intros Hrange. split; [|split; [|split; [|split]]].
  - destruct Hrange; classify.
  - intros m. apply get_sid_match.
  - apply get_sid_no_match.
  - reflexivity.
  - reflexivity.
Qed.

Lemma identify_service_request_witness :
  __identify_service 0x27 = (SID.SecAccess, SType.UDSService)
  ∧ __identify_service 0x12 = (SID.Other, SType.UDSService)
  ∧ __identify_service 0x85 = (SID.CntrDTCSet, SType.UDSService).
Proof.
  split; [|split].
  - destruct (identify_service_request 0x27) as (-> & Hm & _); [lia|].
    by rewrite (Hm SID.SecAccess).
  - destruct (identify_service_request 0x12) as (-> & _ & Hno & _); [lia|].
    rewrite Hno; [done|]. by intros [].
  - destruct (identify_service_request 0x85) as (-> & Hm & _); [lia|].
    by rewrite (Hm SID.CntrDTCSet).
Defined.

(** C4: in both response ranges, 0x40 < v < 0x7F and 0xC2 < v < 0xC9, the
    category is [UDSPosRes] and the identifier is the lookup of v - 0x40:
    the member with exactly that value, or [SID.Other] when there is
    none. *)
Theorem identify_service_positive_response (sid : Z) :
  0x40 < sid < 0x7F ∨ 0xC2 < sid < 0xC9 →
  __identify_service sid = (SID.get_sid (sid - 0x40), SType.UDSPosRes)
  ∧ (∀ m, SID.value m = sid - 0x40 → SID.get_sid (sid - 0x40) = m)
  ∧ ((∀ m, SID.value m ≠ sid - 0x40) → SID.get_sid (sid - 0x40) = SID.Other).
Proof.
  intros Hrange. split; [|split].
  - destruct Hrange; classify.
  - intros m. apply get_sid_match.
  - apply get_sid_no_match.
Qed.

Lemma identify_service_positive_response_witness :
  __identify_service 0x50 = (SID.DiagSCntr, SType.UDSPosRes)
  ∧ __identify_service 0xC5 = (SID.CntrDTCSet, SType.UDSPosRes).
Proof.
  split.
  - destruct (identify_service_positive_response 0x50) as (-> & Hm & _); [lia|].
    by rewrite (Hm SID.DiagSCntr).
  - destruct (identify_service_positive_response 0xC5) as (-> & Hm & _); [lia|].
    by rewrite (Hm SID.CntrDTCSet).
Defined.

(** C5: the boundary values 0x3F, 0x82, 0x89, 0xC2 and 0xC9 belong to no
    range and reach the final [return]: category [Other], identifier
    [Other]. *)
Theorem identify_service_boundaries :
  Forall (λ sid, __identify_service sid = (SID.Other, SType.Other))
    [0x3F; 0x82; 0x89; 0xC2; 0xC9].
Proof. repeat constructor. Qed.

(** C6: the value 0x7F is classified as [UDSNegRes] and its identifier is
    [SID.Other]. *)
Theorem identify_service_negative_response :
  __identify_service 0x7F = (SID.Other, SType.UDSNegRes).
Proof. reflexivity. Qed.

(** C1, amended: 0x40 lies inside the response range, whose
    lower bound in the code is 0x3F < sid; its category is [UDSPosRes] and
    its identifier is the lookup of 0x40 - 0x40 = 0, a value that no
    member has, hence [SID.Other]. *)
Theorem identify_service_0x40 :
  __identify_service 0x40 = (SID.get_sid (0x40 - 0x40), SType.UDSPosRes)
  ∧ SID.get_sid (0x40 - 0x40) = SID.Other
  ∧ (∀ m, SID.value m ≠ 0x40 - 0x40).
Proof. split; [|split]; [reflexivity..|]. by intros []. Qed.

(** C1, counterexample: the classification of 0x40 is not
    ([SID.Other], [SType.Other]); its category is [UDSPosRes]. *)
Lemma identify_service_0x40_not_other :
  __identify_service 0x40 ≠ (SID.Other, SType.Other).
Proof. discriminate. Qed.

(** The response range of the code, whole: 0x3F < sid < 0x7F. *)
Lemma identify_service_positive_response_code_range (sid : Z) :
  0x3F < sid < 0x7F →
  __identify_service sid = (SID.get_sid (sid - 0x40), SType.UDSPosRes).
Proof. intros Hrange. classify. Qed.

(** C10: [SID.get_sid] is a total function of the integer; when exactly
    one member has the value it returns that member, otherwise it returns
    [SID.Other]; at 0xFF it returns [SID.Other]. *)
Theorem get_sid_exact_match_or_other (sid : Z) :
  (∀ m, (SID.value m = sid ∧ ∀ m', SID.value m' = sid → m' = m) →
        SID.get_sid sid = m)
  ∧ ((¬ ∃ m, SID.value m = sid ∧ ∀ m', SID.value m' = sid → m' = m) →
     SID.get_sid sid = SID.Other)
  ∧ SID.get_sid 0xFF = SID.Other.
Proof.
  split; [|split].
  - intros m [Hm _]. by apply get_sid_match.
  - intros Hnone. apply get_sid_no_match. intros m Hm. apply Hnone.
    exists m. split; [done|]. intros m' Hm'. apply SID_value_inj. congruence.
  - reflexivity.
Qed.

Lemma get_sid_exact_match_or_other_witness :
  SID.get_sid 0x22 = SID.RDatByID ∧ SID.get_sid 0x00 = SID.Other.
Proof.
  split.
  - apply (proj1 (get_sid_exact_match_or_other 0x22)). split; [done|].
    intros m' Hm'. by apply SID_value_inj.
  - apply (proj1 (proj2 (get_sid_exact_match_or_other 0x00))).
    intros (m & Hm & _). by destruct m.
Defined.

(** ** Functional CAN identifier groups *)

Section Groups.

Import UDSCANFncIDs.

Implicit Types (σ : store) (self g l : loc) (xs : list string)
  (fncid : string).

(** The generated [__init__] stores the count it is given, and 0 when it
    is given none; the list plays no part in it. *)
Lemma init_num_of σ l n :
  let '(g, σ') := __init__ l n σ in num_of σ' g = Some (default 0 n).
Proof. unfold __init__, num_of. cbn. by rewrite lookup_insert_eq. Qed.

(** The new instance refers to the list object it was given: no copy. *)
Lemma init_ids_of σ l n :
  let '(g, σ') := __init__ l n σ in ids_of σ' g = lists σ !! l.
Proof. unfold __init__, ids_of. cbn. by rewrite lookup_insert_eq. Qed.

Lemma init_fresh σ l n : groups σ !! (__init__ l n σ).1 = None.
Proof. cbn. apply not_elem_of_dom, is_fresh. Qed.

(** [append] on a live instance, step by step. *)
Lemma append_eq σ self o xs fncid :
  groups σ !! self = Some o →
  lists σ !! FncIDs o = Some xs →
  append self fncid σ
  = Some (mkStore (<[FncIDs o := xs ++ [fncid]]> (lists σ))
            (<[self := mk (FncIDs o) (Z.of_nat (length (xs ++ [fncid])))]>
               (groups σ))).
Proof.
  intros Ho Hxs. unfold append, list_append, list_len, set_FncIDNum.
  rewrite Ho. cbn. rewrite Hxs. cbn. rewrite Ho. cbn.
  by rewrite lookup_insert_eq.
Qed.

(** A live instance: the reference [g] leads to an instance and its
    [FncIDs] to a list object. *)
Lemma ids_of_Some σ g xs :
  ids_of σ g = Some xs ↔
  ∃ o, groups σ !! g = Some o ∧ lists σ !! FncIDs o = Some xs.
Proof.
  unfold ids_of. split.
  - destruct (groups σ !! g) as [o|]; [|done]. cbn. eauto.
  - intros (o & -> & Hxs). done.
Qed.

(** [append] fails on dangling references only. *)
Lemma append_is_Some σ self fncid :
  is_Some (append self fncid σ) ↔ is_Some (ids_of σ self).
Proof.
  split.
  - intros [σ' Happ]. unfold append in Happ. unfold ids_of.
    destruct (groups σ !! self) as [o|]; [|done]. cbn in *.
    unfold list_append in Happ.
    destruct (lists σ !! FncIDs o); [done|discriminate].
  - intros [xs (o & Ho & Hxs)%ids_of_Some].
    rewrite (append_eq _ _ _ _ _ Ho Hxs). done.
Qed.

(** [append] changes no list object but the one of [self], and no
    instance but [self]. *)
Lemma append_other_list σ σ' self o fncid l :
  groups σ !! self = Some o →
  append self fncid σ = Some σ' →
  l ≠ FncIDs o →
  lists σ' !! l = lists σ !! l.
Proof.
  intros Ho Happ Hne.
  destruct (append_is_Some σ self fncid) as [[xs Hxs] _]; [done|].
  apply ids_of_Some in Hxs as (o' & Ho' & Hxs).
  assert (o' = o) as -> by congruence.
  rewrite (append_eq _ _ _ _ _ Ho Hxs) in Happ. injection Happ as <-.
  cbn. by rewrite lookup_insert_ne.
Qed.

Lemma append_other_group σ σ' self fncid g :
  append self fncid σ = Some σ' →
  g ≠ self →
  groups σ' !! g = groups σ !! g.
Proof.
  intros Happ Hne.
  destruct (append_is_Some σ self fncid) as [[xs Hxs] _]; [done|].
  apply ids_of_Some in Hxs as (o & Ho & Hxs).
  rewrite (append_eq _ _ _ _ _ Ho Hxs) in Happ. injection Happ as <-.
  cbn. by rewrite lookup_insert_ne.
Qed.

(** C8: [append] on an instance whose list holds [xs] succeeds; after
    it the list of the instance is [xs] followed by [fncid], the count is
    the length of that list, one more than before, and [fncid] occurs
    once more than it did in [xs], also when it occurred already. *)
Theorem append_appends_and_recounts σ self xs fncid :
  ids_of σ self = Some xs →
  ∃ σ', append self fncid σ = Some σ'
    ∧ ids_of σ' self = Some (xs ++ [fncid])
    ∧ num_of σ' self = Some (Z.of_nat (length (xs ++ [fncid])))
    ∧ num_of σ' self = Some (Z.of_nat (length xs) + 1)
    ∧ count_occ String.string_dec (xs ++ [fncid]) fncid
      = S (count_occ String.string_dec xs fncid).
Proof.
  intros (o & Ho & Hxs)%ids_of_Some.
  eexists. split; [by apply append_eq|].
  unfold ids_of, num_of. cbn. rewrite lookup_insert_eq. cbn.
  rewrite lookup_insert_eq. repeat split.
  - rewrite length_app. cbn. do 2 f_equal. lia.
  - rewrite count_occ_app. cbn. destruct (String.string_dec fncid fncid); [lia|done].
Qed.

Lemma append_appends_and_recounts_witness :
  let '(g, σ) := Scenario.one_id in
  ids_of σ g = Some ["7DF"%string]
  ∧ ∃ σ', append g "7DF" σ = Some σ'
      ∧ ids_of σ' g = Some ["7DF"; "7DF"]%string
      ∧ num_of σ' g = Some 2.
Proof.
  split; [reflexivity|].
  destruct (append_appends_and_recounts Scenario.one_id.2
              Scenario.one_id.1 ["7DF"%string] "7DF")
    as (σ' & Happ & Hids & Hnum & _); [reflexivity|].
  exists σ'. split; [exact Happ|]. split; [exact Hids|exact Hnum].
Defined.

(** [append] re-establishes the count of [self], whatever it was. *)
Lemma append_count_ok σ self fncid :
  is_Some (ids_of σ self) →
  ∃ σ', append self fncid σ = Some σ' ∧ count_ok σ' self = true.
Proof.
  intros [xs (o & Ho & Hxs)%ids_of_Some].
  eexists. split; [by apply append_eq|].
  unfold count_ok, ids_of, num_of. cbn. rewrite lookup_insert_eq. cbn.
  rewrite lookup_insert_eq. apply Z.eqb_refl.
Qed.

(** An instance built on an empty list with no count is consistent. *)
Lemma init_empty_count_ok σ l :
  lists σ !! l = Some [] →
  let '(g, σ') := __init__ l None σ in count_ok σ' g = true.
Proof.
  intros Hl. unfold __init__, count_ok, ids_of, num_of. cbn.
  rewrite lookup_insert_eq. cbn. by rewrite Hl.
Qed.

(** [UDSCANFncIDs([])]: the one construction that leaves the count equal
    to the length without naming it. *)
Lemma empty_group_count_ok :
  let '(g, σ) := Scenario.empty_group in
  ids_of σ g = Some [] ∧ num_of σ g = Some 0 ∧ count_ok σ g = true.
Proof. vm_compute. repeat split. Qed.

(** C2, at the failing inputs: the generated [__init__] does not derive
    the count.
    Built on the list [["7DF"]] with the count left out, the instance has
    [FncIDNum = 0] and a list of length 1; built on the empty list with
    the count 5, it has [FncIDNum = 5] and a list of length 0. *)
Theorem init_count_not_derived :
  (let '(g, σ) := Scenario.default_count in
   ids_of σ g = Some ["7DF"%string] ∧ num_of σ g = Some 0
   ∧ count_ok σ g = false)
  ∧ (let '(g, σ) := Scenario.explicit_count in
     ids_of σ g = Some [] ∧ num_of σ g = Some 5 ∧ count_ok σ g = false).
Proof. vm_compute. repeat split. Qed.

(** Two instances built on one list object: [append] through the first
    lengthens the list of both and recounts the first only. *)
Lemma shared_list_count_stale :
  match Scenario.shared_list with
  | Some (g1, g2, σ) =>
      g1 ≠ g2 ∧ count_ok σ g1 = true
      ∧ ids_of σ g2 = Some ["7DF"%string] ∧ num_of σ g2 = Some 0
      ∧ count_ok σ g2 = false
  | None => False
  end.
Proof. vm_compute. repeat split. discriminate. Qed.

End Groups.

(** * Further properties of the code *)

(** ** The enumeration [SID] *)

(** X1: no two members of [SID] have the same value, so the class has no
    alias and iterating it visits each of the 27 members once; every value
    is a byte from 0x10 up. *)
Theorem SID_values_distinct_bytes :
  NoDup (SID.value <$> SID.members)
  ∧ NoDup SID.members
  ∧ (∀ m, m ∈ SID.members)
  ∧ (∀ m, 0x10 ≤ SID.value m ≤ 0xFF).
Proof.
  split; [|split; [|split]].
  - apply (bool_decide_unpack _). by vm_compute.
  - apply (NoDup_fmap_1 SID.value), (bool_decide_unpack _). by vm_compute.
  - apply SID_members_complete.
  - intros m. destruct m; cbn; lia.
Qed.

(** ** The value lookup [SID.get_sid] *)

Lemma get_sid_other_or_value (sid : Z) :
  SID.get_sid sid = SID.Other ∨ SID.value (SID.get_sid sid) = sid.
Proof. apply get_sid_loop_sound. Qed.

Lemma SID_value_elem_of (sid : Z) :
  sid ∈ SID.value <$> SID.members ↔ ∃ m, SID.value m = sid.
Proof.
  rewrite list_elem_of_fmap. split.
  - intros (m & -> & _). by exists m.
  - intros [m <-]. exists m. split; [done|apply SID_members_complete].
Qed.

(** X2: [get_sid] undoes [.value]: the lookup of a member's value is that
    member, [SID.Other] included; and the value of the looked-up member
    is the argument exactly when some member has that value. *)
Theorem get_sid_value_round_trip :
  (∀ m, SID.get_sid (SID.value m) = m)
  ∧ (∀ sid, SID.value (SID.get_sid sid) = sid
            ↔ sid ∈ SID.value <$> SID.members).
Proof.
  split; [apply get_sid_value|].
  intros sid. rewrite SID_value_elem_of. split.
  - intros Hv. by exists (SID.get_sid sid).
  - intros [m <-]. by rewrite get_sid_value.
Qed.

(** X3: outside 0x10..0x87 the lookup always answers [SID.Other]: for
    negative integers, for 0..0x0F, and for everything above 0x87, where
    at 0xFF the answer is the matching member itself. *)
Theorem get_sid_out_of_range (sid : Z) :
  sid < 0x10 ∨ 0x87 < sid → SID.get_sid sid = SID.Other.
Proof.
  intros Hout. destruct (get_sid_other_or_value sid) as [|Hv]; [done|].
  destruct (SID.get_sid sid); cbn in Hv; try lia. done.
Qed.

Lemma get_sid_out_of_range_witness :
  SID.get_sid (-1) = SID.Other ∧ SID.get_sid 0x100 = SID.Other.
Proof.
  split; [apply (get_sid_out_of_range (-1)) | apply (get_sid_out_of_range 0x100)];
    lia.
Defined.

(** X4: the scan of [get_sid] is the lookup in the value-to-member map of the
    enumeration, with [SID.Other] for a missing key. *)
Theorem get_sid_is_map_lookup (sid : Z) :
  SID.get_sid sid = default SID.Other (SID_value2member !! sid).
Proof.
  destruct (decide (sid ∈ SID.value <$> SID.members)) as [Hin|Hnin].
  - apply SID_value_elem_of in Hin as [m <-]. rewrite get_sid_value.
    by destruct m.
  - assert (SID_value2member !! sid = None) as ->.
    { apply not_elem_of_list_to_map. by rewrite <- list_fmap_compose. }
    apply get_sid_no_match. intros m Hm. apply Hnin, SID_value_elem_of. eauto.
Qed.

(** ** Service classification, whole *)

Lemma identify_service_request_eq (sid : Z) :
  0x10 ≤ sid < 0x3F ∨ 0x82 < sid < 0x89 →
  __identify_service sid = (SID.get_sid sid, SType.UDSService).
Proof. intros [|]; classify. Qed.

Lemma identify_service_response_eq (sid : Z) :
  0x3F < sid < 0x7F ∨ 0xC2 < sid < 0xC9 →
  __identify_service sid = (SID.get_sid (sid - 0x40), SType.UDSPosRes).
Proof. intros [|]; classify. Qed.

(** X5: the five categories split the integers: each category is returned on
    exactly the stated values. The response range starts right above 0x3F,
    and the category [Other] takes 0x3F, 0x80..0x82, 0x89..0xC2 and
    everything from 0xC9 up. *)
Theorem identify_service_category (sid : Z) :
  ((__identify_service sid).2 = SType.OBDService ↔ sid < 0x10)
  ∧ ((__identify_service sid).2 = SType.UDSService
     ↔ 0x10 ≤ sid < 0x3F ∨ 0x82 < sid < 0x89)
  ∧ ((__identify_service sid).2 = SType.UDSPosRes
     ↔ 0x3F < sid < 0x7F ∨ 0xC2 < sid < 0xC9)
  ∧ ((__identify_service sid).2 = SType.UDSNegRes ↔ sid = 0x7F)
  ∧ ((__identify_service sid).2 = SType.Other
     ↔ sid = 0x3F ∨ 0x7F < sid ≤ 0x82 ∨ 0x89 ≤ sid ≤ 0xC2 ∨ 0xC9 ≤ sid).
Proof.
  unfold __identify_service.
  repeat match goal with
    | |- context [?a <? ?b] =>
        destruct (Z.ltb_spec a b); cbn [andb]; cbv iota
    | |- context [?a =? ?b] =>
        destruct (Z.eqb_spec a b); cbn [andb]; cbv iota
    end;
    cbn [snd]; repeat split; intros; first [discriminate | lia | done].
Qed.

(** X6: the request byte of every service of the table is classified as a
    request for that service. *)
Theorem identify_service_of_value (m : SID.t) :
  m ≠ SID.Other →
  __identify_service (SID.value m) = (m, SType.UDSService).
Proof. intros Hm. by destruct m. Qed.

Lemma identify_service_of_value_witness :
  __identify_service (SID.value SID.RDTCInfo) = (SID.RDTCInfo, SType.UDSService).
Proof. by apply (identify_service_of_value SID.RDTCInfo). Defined.

(** X7: the request byte of every service of the table plus 0x40 is
    classified as the positive response of that service. *)
Theorem identify_service_of_value_response (m : SID.t) :
  m ≠ SID.Other →
  __identify_service (SID.value m + 0x40) = (m, SType.UDSPosRes).
Proof. intros Hm. by destruct m. Qed.

Lemma identify_service_of_value_response_witness :
  __identify_service (SID.value SID.LinkCntr + 0x40)
  = (SID.LinkCntr, SType.UDSPosRes).
Proof. by apply (identify_service_of_value_response SID.LinkCntr). Defined.

(** X8: whatever is classified as a request, in the table or not, has its
    byte plus 0x40 classified as a positive response with the same
    identifier. *)
Theorem identify_service_request_response_pair (sid : Z) :
  (__identify_service sid).2 = SType.UDSService →
  __identify_service (sid + 0x40)
  = ((__identify_service sid).1, SType.UDSPosRes).
Proof.
  intros Hreq.
  assert (0x10 ≤ sid < 0x3F ∨ 0x82 < sid < 0x89) as Hrange.
  { revert Hreq. classify; cbn [snd]; intros; first [discriminate | lia]. }
  rewrite (identify_service_request_eq sid Hrange).
  rewrite identify_service_response_eq by lia.
  cbn [fst]. by rewrite Z.add_simpl_r.
Qed.

Lemma identify_service_request_response_pair_witness :
  __identify_service (0x22 + 0x40) = (SID.RDatByID, SType.UDSPosRes)
  ∧ __identify_service (0x12 + 0x40) = (SID.Other, SType.UDSPosRes).
Proof.
  split.
  - by rewrite (identify_service_request_response_pair 0x22).
  - by rewrite (identify_service_request_response_pair 0x12).
Defined.

(** X9: an identifier other than [SID.Other] is returned only with the
    categories [UDSService] and [UDSPosRes], and then its value is the
    argument, or the argument minus 0x40. *)
Theorem identify_service_identifier_sound (sid : Z) :
  (__identify_service sid).1 ≠ SID.Other →
  ((__identify_service sid).2 = SType.UDSService
   ∧ SID.value (__identify_service sid).1 = sid)
  ∨ ((__identify_service sid).2 = SType.UDSPosRes
     ∧ SID.value (__identify_service sid).1 = sid - 0x40).
Proof.
  unfold __identify_service.
  repeat match goal with
    | |- context [?a <? ?b] =>
        destruct (Z.ltb_spec a b); cbn [andb]; cbv iota
    | |- context [?a =? ?b] =>
        destruct (Z.eqb_spec a b); cbn [andb]; cbv iota
    end;
    cbn [fst snd]; intros Hm; try done.
  all: match goal with
       | |- context [SID.get_sid ?x] =>
           destruct (get_sid_other_or_value x) as [|Hv]; [done|]
       end.
  all: first [by left | by right].
Qed.

Lemma identify_service_identifier_sound_witness :
  SID.value (__identify_service 0x59).1 = 0x59 - 0x40.
Proof.
  destruct (identify_service_identifier_sound 0x59) as [[Hc _]|[_ Hv]].
  - discriminate.
  - discriminate Hc.
  - exact Hv.
Defined.

(** X10: the bytes 0x40..0x4F are positive responses without an identifier:
    minus 0x40 they fall below every value of the table. *)
Theorem identify_service_low_response (sid : Z) :
  0x3F < sid < 0x50 →
  __identify_service sid = (SID.Other, SType.UDSPosRes).
Proof.
  intros Hrange. rewrite identify_service_response_eq by lia.
  f_equal. apply get_sid_no_match. intros m. destruct m; cbn; lia.
Qed.

Lemma identify_service_low_response_witness :
  __identify_service 0x4F = (SID.Other, SType.UDSPosRes).
Proof. apply (identify_service_low_response 0x4F). lia. Defined.

(** ** Instances, lists and aliasing *)

Section Aliasing.

Import UDSCANFncIDs Program.

Implicit Types (σ : store) (self g l : loc) (xs ys : list string)
  (fncid : string) (o : UDSCANFncIDs.t).

Lemma count_ok_true σ g :
  count_ok σ g = true ↔
  ∃ o xs, groups σ !! g = Some o ∧ lists σ !! FncIDs o = Some xs
          ∧ FncIDNum o = Z.of_nat (length xs).
Proof.
  unfold count_ok, num_of, ids_of.
  destruct (groups σ !! g) as [o|]; cbn.
  - destruct (lists σ !! FncIDs o) as [xs|] eqn:Hxs; cbn.
    + rewrite Z.eqb_eq. split; [by eauto 6|].
      intros (o' & xs' & [= <-] & Hxs' & Hn). congruence.
    + split; [done|]. intros (o' & xs' & [= <-] & Hxs' & _). congruence.
  - split; [done|]. by intros (o' & xs' & ? & _).
Qed.

(** A successful [append] was made on a live instance, and the store
    after it is the one of [append_eq]. *)
Lemma append_inv σ σ' self fncid :
  append self fncid σ = Some σ' →
  ∃ o xs, groups σ !! self = Some o ∧ lists σ !! FncIDs o = Some xs
    ∧ σ' = mkStore (<[FncIDs o := xs ++ [fncid]]> (lists σ))
             (<[self := mk (FncIDs o) (Z.of_nat (length (xs ++ [fncid])))]>
                (groups σ)).
Proof.
  intros Happ.
  destruct (append_is_Some σ self fncid) as [[xs Hxs] _]; [done|].
  apply ids_of_Some in Hxs as (o & Ho & Hxs). exists o, xs.
  rewrite (append_eq _ _ _ _ _ Ho Hxs) in Happ. by injection Happ as <-.
Qed.

(** X11: [append] allocates nothing, leaves every other instance and every
    list object but the one of [self] as they were, and leaves [self]
    referring to the same list object. *)
Theorem append_frame σ σ' self fncid :
  append self fncid σ = Some σ' →
  (∀ g, g ≠ self → groups σ' !! g = groups σ !! g)
  ∧ (∀ l, FncIDs <$> groups σ !! self ≠ Some l →
          lists σ' !! l = lists σ !! l)
  ∧ FncIDs <$> groups σ' !! self = FncIDs <$> groups σ !! self
  ∧ dom (groups σ') = dom (groups σ)
  ∧ dom (lists σ') = dom (lists σ).
Proof.
  intros (o & xs & Ho & Hxs & ->)%append_inv. cbn. repeat split.
  - intros g Hne. by rewrite lookup_insert_ne.
  - intros l Hl. rewrite Ho in Hl. cbn in Hl.
    rewrite lookup_insert_ne; [done|congruence].
  - by rewrite lookup_insert_eq, Ho.
  - by apply dom_insert_lookup_L.
  - by apply dom_insert_lookup_L.
Qed.

Lemma append_frame_witness :
  match append two_on_two_lists.1.1 "7E0" two_on_two_lists.2 with
  | Some σ' =>
      groups σ' !! two_on_two_lists.1.2
      = groups two_on_two_lists.2 !! two_on_two_lists.1.2
      ∧ dom (lists σ') = dom (lists two_on_two_lists.2)
  | None => False
  end.
Proof.
  destruct (append _ _ _) as [σ'|] eqn:Happ; [|by vm_compute in Happ].
  destruct (append_frame _ _ _ _ Happ) as (Hg & _ & _ & _ & Hl).
  split; [by apply Hg|exact Hl].
Defined.

(** X12: two instances on one list object: [append] through the first also
    lengthens the list the second one shows, and leaves the count of the
    second as it was; a second instance that was consistent no longer
    is. *)
Theorem append_shared_list_stale σ σ' g1 g2 o1 o2 xs fncid :
  g1 ≠ g2 →
  groups σ !! g1 = Some o1 → groups σ !! g2 = Some o2 →
  FncIDs o1 = FncIDs o2 →
  lists σ !! FncIDs o1 = Some xs →
  append g1 fncid σ = Some σ' →
  ids_of σ' g2 = Some (xs ++ [fncid])
  ∧ num_of σ' g2 = Some (FncIDNum o2)
  ∧ (count_ok σ g2 = true → count_ok σ' g2 = false).
Proof.
  intros Hne Ho1 Ho2 Heq Hxs Happ.
  rewrite (append_eq _ _ _ _ _ Ho1 Hxs) in Happ. injection Happ as <-.
  unfold count_ok, ids_of, num_of. cbn.
  rewrite lookup_insert_ne by done. rewrite Ho2. cbn.
  rewrite <- Heq, lookup_insert_eq, Hxs. repeat split.
  rewrite length_app. cbn. intros Hok%Z.eqb_eq. apply Z.eqb_neq. lia.
Qed.

Lemma append_shared_list_stale_witness :
  match append two_on_one_list.1.1 "7DF" two_on_one_list.2 with
  | Some σ' =>
      ids_of σ' two_on_one_list.1.2 = Some ["7DF"%string]
      ∧ num_of σ' two_on_one_list.1.2 = Some 0
      ∧ count_ok σ' two_on_one_list.1.2 = false
  | None => False
  end.
Proof.
  destruct (append _ _ _) as [σ'|] eqn:Happ; [|by vm_compute in Happ].
  destruct (append_shared_list_stale two_on_one_list.2 σ'
              two_on_one_list.1.1 two_on_one_list.1.2
              (mk 1 0) (mk 1 0) [] "7DF")
    as (Hids & Hnum & Hok); [by vm_compute..|exact Happ|].
  split; [exact Hids|]. split; [exact Hnum|]. apply Hok. by vm_compute.
Defined.

(** ** The count as an invariant of the store *)

Lemma no_shared_list_append σ σ' self fncid :
  no_shared_list σ → append self fncid σ = Some σ' → no_shared_list σ'.
Proof.
  intros Hns (o & xs & Ho & Hxs & ->)%append_inv g1 g2 o1 o2. cbn.
  rewrite !lookup_insert_Some.
  intros [[<- <-]|[Hne1 H1]] [[<- <-]|[Hne2 H2]] Heq; cbn in Heq.
  - done.
  - by apply (Hns self g2 o o2).
  - by apply (Hns g1 self o1 o).
  - by apply (Hns g1 g2 o1 o2).
Qed.

Lemma all_count_ok_append σ σ' self fncid :
  no_shared_list σ → all_count_ok σ → append self fncid σ = Some σ' →
  all_count_ok σ'.
Proof.
  intros Hns Hok (o & xs & Ho & Hxs & ->)%append_inv g [o' Ho'].
  apply count_ok_true. cbn in *.
  apply lookup_insert_Some in Ho' as [[<- <-]|[Hne Ho']].
  - exists (mk (FncIDs o) (Z.of_nat (length (xs ++ [fncid])))), (xs ++ [fncid]).
    by rewrite !lookup_insert_eq.
  - destruct (proj1 (count_ok_true σ g)) as (o'' & xs' & Ho'' & Hxs' & Hn);
      [by apply Hok|].
    assert (o'' = o') as -> by congruence.
    exists o', xs'. rewrite !lookup_insert_ne; [done| |done].
    intros Heq. apply Hne. by apply (Hns self g o o').
Qed.

(** X13: in a store where no two instances share a list object and every
    instance has [FncIDNum == len(FncIDs)], both stay true after [append]
    on any instance. *)
Theorem append_preserves_invariant σ σ' self fncid :
  no_shared_list σ → all_count_ok σ →
  append self fncid σ = Some σ' →
  no_shared_list σ' ∧ all_count_ok σ'.
Proof.
  intros Hns Hok Happ. split.
  - by eapply no_shared_list_append.
  - by eapply all_count_ok_append.
Qed.

Lemma no_shared_list_init σ l n :
  no_shared_list σ →
  (∀ g o, groups σ !! g = Some o → FncIDs o ≠ l) →
  no_shared_list (__init__ l n σ).2.
Proof.
  intros Hns Hfree g1 g2 o1 o2. cbn. rewrite !lookup_insert_Some.
  intros [[<- <-]|[Hne1 H1]] [[<- <-]|[Hne2 H2]] Heq; cbn in Heq.
  - done.
  - by destruct (Hfree g2 o2).
  - by destruct (Hfree g1 o1).
  - by apply (Hns g1 g2 o1 o2).
Qed.

Lemma all_count_ok_init σ l xs n :
  all_count_ok σ →
  lists σ !! l = Some xs →
  default 0 n = Z.of_nat (length xs) →
  all_count_ok (__init__ l n σ).2.
Proof.
  intros Hok Hxs Hn g [o Ho]. apply count_ok_true. cbn in *.
  apply lookup_insert_Some in Ho as [[<- <-]|[Hne Ho]].
  - exists (mk l (default 0 n)), xs. by rewrite lookup_insert_eq.
  - destruct (proj1 (count_ok_true σ g)) as (o' & xs' & Ho' & Hxs' & Hn');
      [by apply Hok|].
    exists o', xs'. by rewrite lookup_insert_ne.
Qed.

Lemma no_shared_list_list_new σ xs :
  no_shared_list σ → no_shared_list (list_new xs σ).2.
Proof. done. Qed.

Lemma all_count_ok_list_new σ xs :
  all_count_ok σ → all_count_ok (list_new xs σ).2.
Proof.
  intros Hok g [o Ho]. apply count_ok_true. cbn in *.
  destruct (proj1 (count_ok_true σ g)) as (o' & xs' & Ho' & Hxs' & Hn');
    [by apply Hok|].
  exists o', xs'. rewrite lookup_insert_ne; [done|].
  intros Heq. pose proof (is_fresh (dom (lists σ))) as Hfresh.
  rewrite Heq in Hfresh. apply Hfresh, elem_of_dom. eauto.
Qed.

(** The list object of a new list display is referred to by no
    instance of a store whose instances all have live lists. *)
Lemma list_new_unreferenced σ xs g o :
  all_count_ok σ → groups σ !! g = Some o → FncIDs o ≠ (list_new xs σ).1.
Proof.
  intros Hok Ho Heq.
  destruct (proj1 (count_ok_true σ g)) as (o' & xs' & Ho' & Hxs' & _);
    [by apply Hok|].
  assert (o' = o) as -> by congruence.
  apply (is_fresh (dom (lists σ))). cbn in Heq. rewrite <- Heq.
  apply elem_of_dom. eauto.
Qed.

(** X14: building an instance keeps both invariants of the store when the list
    it is given is used by no other instance and the count it is given,
    0 when left out, is the length of that list. *)
Theorem init_preserves_invariant σ l xs n :
  no_shared_list σ → all_count_ok σ →
  lists σ !! l = Some xs →
  (∀ g o, groups σ !! g = Some o → FncIDs o ≠ l) →
  default 0 n = Z.of_nat (length xs) →
  no_shared_list (__init__ l n σ).2 ∧ all_count_ok (__init__ l n σ).2.
Proof.
  intros Hns Hok Hxs Hfree Hn. split.
  - by apply no_shared_list_init.
  - by eapply all_count_ok_init.
Qed.

Lemma invariant_empty_store :
  no_shared_list empty_store ∧ all_count_ok empty_store.
Proof.
  split.
  - intros g1 g2 o1 o2 H1. unfold empty_store in H1. cbn [groups] in H1.
    by rewrite lookup_empty in H1.
  - intros g [o Ho]. unfold empty_store in Ho. cbn [groups] in Ho.
    by rewrite lookup_empty in Ho.
Qed.

(** The store of [one_on_two_lists] satisfies both invariants, and its
    second list is used by no instance. *)
Lemma invariant_one_on_two_lists :
  no_shared_list one_on_two_lists.2 ∧ all_count_ok one_on_two_lists.2
  ∧ ∀ g o, groups one_on_two_lists.2 !! g = Some o →
           FncIDs o ≠ one_on_two_lists.1.2.
Proof.
  destruct invariant_empty_store as [Hns0 Hok0].
  set (σ1 := (list_new ["7DF"%string] empty_store).2).
  set (σ2 := (list_new [] σ1).2).
  assert (all_count_ok σ2) as Hok2
    by by apply all_count_ok_list_new, all_count_ok_list_new.
  assert (∀ g o, groups σ2 !! g = Some o → False) as Hnone.
  { intros g o Ho. change (groups σ2) with (∅ : gmap loc UDSCANFncIDs.t) in Ho.
    by rewrite lookup_empty in Ho. }
  change (one_on_two_lists.2) with (__init__ 1%positive (Some 1) σ2).2.
  split; [|split].
  - apply no_shared_list_init; [done|]. intros g o Ho. by destruct (Hnone g o).
  - by apply (all_count_ok_init σ2 1%positive ["7DF"%string]).
  - intros g o. cbn [__init__ snd groups].
    intros [[<- <-]|[_ Ho]]%lookup_insert_Some; [done|]. by destruct (Hnone g o).
Qed.

Lemma invariant_two_on_two_lists :
  no_shared_list two_on_two_lists.2 ∧ all_count_ok two_on_two_lists.2.
Proof.
  destruct invariant_one_on_two_lists as (Hns & Hok & Hfree).
  change (two_on_two_lists.2)
    with (__init__ one_on_two_lists.1.2 None one_on_two_lists.2).2.
  split.
  - by apply no_shared_list_init.
  - by apply (all_count_ok_init _ _ []).
Qed.

Lemma append_preserves_invariant_witness :
  match append two_on_two_lists.1.1 "7E0" two_on_two_lists.2 with
  | Some σ' => no_shared_list σ' ∧ all_count_ok σ'
  | None => False
  end.
Proof.
  destruct (append _ _ _) as [σ'|] eqn:Happ; [|by vm_compute in Happ].
  destruct invariant_two_on_two_lists as [Hns Hok].
  exact (append_preserves_invariant _ _ _ _ Hns Hok Happ).
Defined.

Lemma init_preserves_invariant_witness :
  no_shared_list (__init__ one_on_two_lists.1.2 None one_on_two_lists.2).2
  ∧ all_count_ok (__init__ one_on_two_lists.1.2 None one_on_two_lists.2).2.
Proof.
  destruct invariant_one_on_two_lists as (Hns & Hok & Hfree).
  by apply (init_preserves_invariant _ _ [] None).
Defined.

(** ** Construction followed by [append], and runs of [append] *)

Lemma append_ids_num σ self xs fncid :
  ids_of σ self = Some xs →
  ∃ σ', append self fncid σ = Some σ'
    ∧ ids_of σ' self = Some (xs ++ [fncid])
    ∧ num_of σ' self = Some (Z.of_nat (length (xs ++ [fncid]))).
Proof.
  intros (o & Ho & Hxs)%ids_of_Some.
  eexists. split; [by apply append_eq|].
  unfold ids_of, num_of. cbn. rewrite lookup_insert_eq. cbn.
  by rewrite lookup_insert_eq.
Qed.

(** X15: an instance holds the list it was built on, not a copy: the first
    [append] puts the identifier into the list object of the caller, and
    it makes the count right whatever count the instance was built
    with. *)
Theorem init_then_append σ l xs n fncid :
  lists σ !! l = Some xs →
  ∃ σ', append (__init__ l n σ).1 fncid (__init__ l n σ).2 = Some σ'
    ∧ lists σ' !! l = Some (xs ++ [fncid])
    ∧ ids_of σ' (__init__ l n σ).1 = Some (xs ++ [fncid])
    ∧ count_ok σ' (__init__ l n σ).1 = true.
Proof.
  intros Hxs.
  set (g := (__init__ l n σ).1). set (σ1 := (__init__ l n σ).2).
  assert (groups σ1 !! g = Some (mk l (default 0 n))) as Hg
    by apply lookup_insert_eq.
  eexists. split; [by apply (append_eq σ1 g _ xs fncid Hg)|].
  unfold count_ok, ids_of, num_of. cbn. rewrite !lookup_insert_eq. cbn.
  rewrite lookup_insert_eq. repeat split. apply Z.eqb_refl.
Qed.

Lemma init_then_append_witness :
  let '(ids, σ) := list_new ["7DF"%string] empty_store in
  ∃ σ', append (__init__ ids (Some 5) σ).1 "7E0" (__init__ ids (Some 5) σ).2
        = Some σ'
    ∧ lists σ' !! ids = Some ["7DF"; "7E0"]%string
    ∧ count_ok σ' (__init__ ids (Some 5) σ).1 = true.
Proof.
  destruct (init_then_append (list_new ["7DF"%string] empty_store).2
              (list_new ["7DF"%string] empty_store).1
              ["7DF"%string] (Some 5) "7E0")
    as (σ' & Happ & Hl & _ & Hok); [by vm_compute|].
  exists σ'. split; [exact Happ|]. split; [exact Hl|exact Hok].
Defined.

(** X16: a run of [append] calls on a live instance succeeds and leaves the
    old identifiers followed by the new ones, in the order of the calls.
    The count is the new length when at least one call was made; an empty
    run leaves the count as it was, right or wrong. *)
Theorem append_all_extends σ self xs ys :
  ids_of σ self = Some xs →
  ∃ σ', append_all self ys σ = Some σ'
    ∧ ids_of σ' self = Some (xs ++ ys)
    ∧ (ys ≠ [] →
       num_of σ' self = Some (Z.of_nat (length xs) + Z.of_nat (length ys)))
    ∧ (ys = [] → σ' = σ).
Proof.
  revert σ xs. induction ys as [|fncid ys IH]; intros σ xs Hxs.
  - exists σ. by rewrite app_nil_r.
  - destruct (append_ids_num σ self xs fncid Hxs) as (σ1 & Happ & Hids1 & Hnum1).
    destruct (IH σ1 (xs ++ [fncid]) Hids1) as (σ' & Hall & Hids & Hnum & Hnil).
    exists σ'. cbn [append_all]. rewrite Happ. cbn.
    split; [done|]. split; [by rewrite <- app_assoc in Hids|].
    split; [|done]. intros _. destruct ys as [|fncid' ys'].
    + rewrite (Hnil eq_refl), Hnum1, length_app. cbn. f_equal. lia.
    + rewrite Hnum by done. rewrite length_app. cbn. f_equal. lia.
Qed.

Lemma append_all_extends_witness :
  match append_all two_on_two_lists.1.1 ["7E0"; "7DF"; "7E1"]%string
          two_on_two_lists.2 with
  | Some σ' =>
      ids_of σ' two_on_two_lists.1.1 = Some ["7DF"; "7E0"; "7DF"; "7E1"]%string
      ∧ num_of σ' two_on_two_lists.1.1 = Some 4
  | None => False
  end.
Proof.
  destruct (append_all_extends two_on_two_lists.2 two_on_two_lists.1.1
              ["7DF"%string] ["7E0"; "7DF"; "7E1"]%string)
    as (σ' & -> & Hids & Hnum & _); [by vm_compute|].
  split; [exact Hids|]. by apply Hnum.
Defined.

End Aliasing.
